(** * Generative-ABSA: the inference driver of [inference.py]

    A shallow embedding of the script's [__main__] block, of
    [T5FineTuner._step], and of the collaborators they call.  The tokenizer,
    the pretrained model, [torch.load], [MyDataset] and CUDA are outside the
    file: they are the fields of the class [Torch] below, and every operation
    of theirs that can raise returns an [option]. *)

From Stdlib Require Import ZArith QArith Lia Lqa.
From stdpp Require Import base option list strings gmap.

Local Open Scope string_scope.
Local Open Scope Z_scope.
Local Open Scope list_scope.

(** ** Configuration: the namespace returned by [init_args] *)

(** One field per [parser.add_argument]; Python integers are unbounded, so
    [Z]; [--n_gpu] has no [type=], so a value given on the command line stays
    a string. *)
Record Args := {
  task : string;
  file_path : string;
  model_name_or_path : string;
  paradigm : string;
  do_train : bool;
  do_eval : bool;
  do_direct_eval : bool;
  max_seq_length : Z;
  n_gpu : string;
  train_batch_size : Z;
  eval_batch_size : Z;
  gradient_accumulation_steps : Z;
  learning_rate : Q;
  num_train_epochs : Z;
  seed : Z;
  weight_decay : Q;
  adam_epsilon : Q;
  warmup_steps : Q;
  ckpt : string
}.

(** The flags marked [required=True], as given on the command line; the
    others take the defaults of [init_args]. *)
Definition init_args (task_ file_path_ paradigm_ ckpt_ : string) : Args := {|
  task := task_;
  file_path := file_path_;
  model_name_or_path := "t5-base";
  paradigm := paradigm_;
  do_train := false;
  do_eval := false;
  do_direct_eval := false;
  max_seq_length := 128;
  n_gpu := "0";
  train_batch_size := 16;
  eval_batch_size := 16;
  gradient_accumulation_steps := 1;
  learning_rate := (3 # 10000)%Q;
  num_train_epochs := 20;
  seed := 42;
  weight_decay := 0%Q;
  adam_epsilon := (1 # 100000000)%Q;
  warmup_steps := 0%Q;
  ckpt := ckpt_
|}.

(** ** Tensors, dataset items and batches *)

(** A two-dimensional integer tensor, one inner list per row. *)
Definition Tensor : Type := list (list Z).

(** What [MyDataset.__getitem__] hands to the loader: the two keys the driver
    reads, ["source_ids"] and ["source_mask"]. *)
Record Item := {
  source_ids : list Z;
  source_mask : list Z
}.

(** A collated batch: the rows of its items stacked key by key. *)
Record Batch := {
  batch_source_ids : Tensor;
  batch_source_mask : Tensor
}.

Definition collate (items : list Item) : Batch := {|
  batch_source_ids := map source_ids items;
  batch_source_mask := map source_mask items
|}.

(** [torch.utils.data.DataLoader]: the arguments the script passes. *)
Record DataLoader := {
  dataset : list Item;
  batch_size : nat;
  num_workers : nat
}.

(** The loader's batch sampler with its defaults (sequential sampler,
    [drop_last=False]): indices are taken in order, a batch is yielded as soon
    as it holds [bs] of them, and what is left at the end is yielded too. *)
Fixpoint batch_sampler {A : Type} (bs : nat) (batch : list A) (l : list A)
  : list (list A) :=
  match l with
  | [] => match batch with [] => [] | _ :: _ => [batch] end
  | idx :: l' =>
      let batch' := batch ++ [idx] in
      if (length batch' =? bs)%nat
      then batch' :: batch_sampler bs [] l'
      else batch_sampler bs batch' l'
  end.

(** Iterating a loader: the groups of items, each collated. *)
Definition item_batches (dl : DataLoader) : list (list Item) :=
  batch_sampler (batch_size dl) [] (dataset dl).

(** ** The collaborators outside the file *)

(** The hyper-parameters stored in a checkpoint: the fields that
    [T5FineTuner] reads when it is built and when it makes its loaders. *)
Record HParams := {
  hp_model_name_or_path : string;
  hp_train_batch_size : Z;
  hp_eval_batch_size : Z
}.

Class Torch := {
  T5Tokenizer : Type;
  T5ForConditionalGeneration : Type;
  StateDict : Type;
  Loss : Type;
  (** [T5Tokenizer.from_pretrained(name)] *)
  tokenizer_from_pretrained : string → option T5Tokenizer;
  (** [tokenizer.pad_token_id] *)
  pad_token_id : T5Tokenizer → Z;
  (** [tokenizer.decode(ids, skip_special_tokens=...)] *)
  decode : T5Tokenizer → list Z → bool → string;
  (** [T5ForConditionalGeneration.from_pretrained(name)] *)
  model_from_pretrained : string → option T5ForConditionalGeneration;
  (** calling the model: [input_ids], [attention_mask], [labels],
      [decoder_attention_mask]; the result is the tuple of outputs *)
  model_call : T5ForConditionalGeneration →
               Tensor → Tensor → Tensor → Tensor → option (list Loss);
  (** [model.generate(input_ids=..., attention_mask=..., max_length=...)] *)
  generate : T5ForConditionalGeneration →
             Tensor → Tensor → Z → option Tensor;
  (** [module.load_state_dict(state_dict)] on the wrapped model *)
  load_state_dict : T5ForConditionalGeneration → StateDict →
                    option T5ForConditionalGeneration;
  (** [model.to(torch.device("cuda:" + n_gpu))] *)
  to_device : T5ForConditionalGeneration → string →
              option T5ForConditionalGeneration;
  (** [model.eval()] *)
  eval_mode : T5ForConditionalGeneration → T5ForConditionalGeneration;
  (** [MyDataset(tokenizer, file_path, paradigm, task, max_len)]: reads and
      encodes the input file *)
  MyDataset : T5Tokenizer → string → string → string → Z → option (list Item)
}.

(** The values found under the keys of a checkpoint dictionary. *)
Inductive CkptValue `{Torch} : Type :=
  | CkptHParams (h : HParams)
  | CkptStateDict (sd : StateDict)
  | CkptOther.

(** [torch.load(path)]: the dictionary pickled at [path], when there is one. *)
Class Checkpoints `{Torch} := {
  torch_load : string → option (gmap string CkptValue)
}.

(** ** Exceptions, results and the state-and-exception monad *)

(** The exceptions that reach the top level, named after the call that raises
    them. *)
Inductive Exn :=
  | TokenizerError      (* T5Tokenizer.from_pretrained *)
  | DatasetError        (* MyDataset(...): the input file cannot be read *)
  | TorchLoadError      (* torch.load: the checkpoint is missing or corrupt *)
  | KeyError (key : string)
  | AttributeError      (* a checkpoint entry of the wrong kind *)
  | ModelError          (* T5ForConditionalGeneration.from_pretrained *)
  | StateDictError      (* load_state_dict *)
  | DeviceError         (* .to(device) *)
  | GenerateError       (* model.generate *)
  | ForwardError        (* calling the model *)
  | IndexError
  | InvalidReference.   (* a reference to no tensor; Python has none *)

Inductive result (A : Type) :=
  | Ok (a : A)
  | Raise (e : Exn).
Arguments Ok {A} a.
Arguments Raise {A} e.

(** A computation reads and writes a state of type [S] and either returns or
    raises; the state written before a [Raise] is kept, as the effects of a
    Python program are when an exception ends it. *)
Definition M (S A : Type) : Type := S → result A * S.

Definition ret {S A} (a : A) : M S A := λ s, (Ok a, s).

Definition raise {S A} (e : Exn) : M S A := λ s, (Raise e, s).

Definition bind {S A B} (m : M S A) (k : A → M S B) : M S B :=
  λ s, match m s with
       | (Ok a, s') => k a s'
       | (Raise e, s') => (Raise e, s')
       end.

Definition modify {S} (f : S → S) : M S unit := λ s, (Ok tt, f s).

Definition gets {S A} (f : S → A) : M S A := λ s, (Ok (f s), s).

(** A call that raises [e] when the collaborator gives no value. *)
Definition try {S A} (e : Exn) (o : option A) : M S A :=
  match o with
  | Some a => ret a
  | None => raise e
  end.

Declare Scope py_scope.
Delimit Scope py_scope with py.
Notation "x <- m ;; k" := (bind m (λ x, k))
  (at level 100, m at next level, right associativity) : py_scope.
Notation "m ;; k" := (bind m (λ _, k))
  (at level 100, right associativity) : py_scope.
Local Open Scope py_scope.

(** ** The world the driver acts on *)

(** The stages of the design document's state machine. *)
Inductive Step :=
  | LOAD_CHECKPOINT
  | LOAD_INPUT
  | ENCODE
  | GENERATE
  | DECODE
  | APPEND_TO_OUTPUT
  | DONE.

Global Instance Step_eq_dec : EqDecision Step.
Proof. solve_decision. Defined.

(** What the driver does, in the order it does it, with the arguments of each
    call.  An event is recorded when the call is made, whether it then
    returns or raises.  There is none for encoding: the driver never encodes,
    its batches come encoded out of [MyDataset] and the loader. *)
Inductive Event :=
  | EvLoadInput (path : string)
  | EvLoadCheckpoint (path : string)
  | EvGenerate (input_ids attention_mask : Tensor) (max_length : Z)
  | EvDecode (outs : Tensor)
  | EvAppend (path : string) (lines : list string)
  | EvDone.

Definition step_of (e : Event) : Step :=
  match e with
  | EvLoadInput _ => LOAD_INPUT
  | EvLoadCheckpoint _ => LOAD_CHECKPOINT
  | EvGenerate _ _ _ => GENERATE
  | EvDecode _ => DECODE
  | EvAppend _ _ => APPEND_TO_OUTPUT
  | EvDone => DONE
  end.

(** The file system (path to contents) and the events so far, oldest first. *)
Record World := {
  fs : gmap string string;
  trace : list Event
}.

Definition log (e : Event) : M World unit :=
  modify (λ w, {| fs := fs w; trace := trace w ++ [e] |}).

(** The contents of a file, empty when there is no such file. *)
Definition contents (path : string) (w : World) : string :=
  default "" (fs w !! path).

(** [fp.write(d + "\n")] for each [d], on a file opened with mode ["a+"]:
    the file is created when it is missing, and every write goes to its
    end. *)
Definition newline : string := String (Ascii.ascii_of_nat 10) "".

Definition write_lines (dec : list string) : string :=
  foldr (λ d rest, d +:+ newline +:+ rest) "" dec.

Definition append_lines (path : string) (dec : list string) : M World unit :=
  modify (λ w, {| fs := <[path := contents path w +:+ write_lines dec]> (fs w);
                  trace := trace w |}).

Definition results_file : string := "inference_results.txt".

(** ** [T5FineTuner] *)

Record T5FineTuner `{Torch} := {
  hparams : HParams;
  model : T5ForConditionalGeneration;
  tokenizer : T5Tokenizer
}.

(** References to tensors: a batch given to [_step] is a dictionary from keys
    to tensor objects, and two names may denote one object. *)
Definition Heap : Type := gmap nat Tensor.

Definition deref (r : nat) : M (gmap nat Tensor) Tensor :=
  λ h, match h !! r with
       | Some t => (Ok t, h)
       | None => (Raise InvalidReference, h)
       end.

(** [d[key]] on a dictionary. *)
Definition getitem {S V} (d : gmap string V) (key : string) : M S V :=
  try (KeyError key) (d !! key).

(** [t[t[:, :] == pad] = v] on the values of a tensor. *)
Definition masked_fill (pad v : Z) (t : Tensor) : Tensor :=
  map (map (λ x, if x =? pad then v else x)) t.

(** The same assignment on the object that [r] refers to. *)
Definition masked_assign (r : nat) (pad v : Z) : M (gmap nat Tensor) unit :=
  t <- deref r;;
  modify (λ h, <[r := masked_fill pad v t]> h).

Section FineTuner.
Context `{Torch}.

(** [T5FineTuner.__init__] *)
Definition T5FineTuner_init {S} (hp : HParams) : M S T5FineTuner :=
  m <- try ModelError (model_from_pretrained (hp_model_name_or_path hp));;
  t <- try TokenizerError
         (tokenizer_from_pretrained (hp_model_name_or_path hp));;
  ret {| hparams := hp; model := m; tokenizer := t |}.

(** [T5FineTuner.forward], on the four arguments [_step] passes. *)
Definition forward {S} (self : T5FineTuner)
    (input_ids attention_mask decoder_attention_mask labels : Tensor)
  : M S (list Loss) :=
  try ForwardError
    (model_call (model self) input_ids attention_mask labels
                decoder_attention_mask).

(** [T5FineTuner._step]: [lm_labels] is the object under ["target_ids"],
    not a copy of it. *)
Definition _step (self : T5FineTuner) (batch : gmap string nat)
  : M (gmap nat Tensor) Loss :=
  lm_labels <- getitem batch "target_ids";;
  masked_assign lm_labels (pad_token_id (tokenizer self)) (-100);;
  input_ids <- getitem batch "source_ids";;
  attention_mask <- getitem batch "source_mask";;
  decoder_attention_mask <- getitem batch "target_mask";;
  input_ids_t <- deref input_ids;;
  attention_mask_t <- deref attention_mask;;
  labels_t <- deref lm_labels;;
  decoder_attention_mask_t <- deref decoder_attention_mask;;
  outputs <- forward self input_ids_t attention_mask_t
               decoder_attention_mask_t labels_t;;
  try IndexError (outputs !! 0%nat).

(** [module.load_state_dict], which loads into the wrapped model. *)
Definition T5FineTuner_load_state_dict {S} (self : T5FineTuner)
    (sd : StateDict) : M S T5FineTuner :=
  m <- try StateDictError (load_state_dict (model self) sd);;
  ret {| hparams := hparams self; model := m; tokenizer := tokenizer self |}.

(** [self.model], for the places where [model] names the fine-tuner
    itself, and the fine-tuner with that field replaced. *)
Definition wrapped_model (self : T5FineTuner) : T5ForConditionalGeneration :=
  model self.

Definition with_model (self : T5FineTuner) (m : T5ForConditionalGeneration)
  : T5FineTuner :=
  {| hparams := hparams self; model := m; tokenizer := tokenizer self |}.

End FineTuner.

(** ** The driver: the [__main__] block *)

Section Driver.
Context `{Checkpoints}.

(** The lines 310 to 339: everything before the loop. *)
Definition startup (args : Args)
  : M World (T5Tokenizer * DataLoader * T5FineTuner) :=
  tokenizer <- try TokenizerError
                 (tokenizer_from_pretrained (model_name_or_path args));;
  log (EvLoadInput (file_path args));;
  input_data <- try DatasetError
                  (MyDataset tokenizer (file_path args) (paradigm args)
                             (task args) (max_seq_length args));;
  let data_loader :=
    {| dataset := input_data; batch_size := 32; num_workers := 4 |} in
  log (EvLoadCheckpoint (ckpt args));;
  model_ckpt <- try TorchLoadError (torch_load (ckpt args));;
  hp_entry <- getitem model_ckpt "hyper_parameters";;
  hp <- match hp_entry with
        | CkptHParams hp => ret hp
        | _ => raise AttributeError
        end;;
  model <- T5FineTuner_init hp;;
  sd_entry <- getitem model_ckpt "state_dict";;
  sd <- match sd_entry with
        | CkptStateDict sd => ret sd
        | _ => raise AttributeError
        end;;
  model <- T5FineTuner_load_state_dict model sd;;
  on_device <- try DeviceError
                 (to_device (wrapped_model model) (n_gpu args));;
  let model := with_model model (eval_mode on_device) in
  ret (tokenizer, data_loader, model).

(** The body of [for batch in tqdm(data_loader)], once per batch. *)
Definition inference_batch (model : T5FineTuner) (tokenizer : T5Tokenizer)
    (items : list Item) : M World unit :=
  let batch := collate items in
  log (EvGenerate (batch_source_ids batch) (batch_source_mask batch) 128);;
  outs <- try GenerateError
            (generate (wrapped_model model) (batch_source_ids batch)
                      (batch_source_mask batch) 128);;
  log (EvDecode outs);;
  let dec := map (λ ids, decode tokenizer ids true) outs in
  log (EvAppend results_file dec);;
  append_lines results_file dec.

Fixpoint inference_loop (model : T5FineTuner) (tokenizer : T5Tokenizer)
    (batches : list (list Item)) : M World unit :=
  match batches with
  | [] => ret tt
  | items :: rest =>
      inference_batch model tokenizer items;;
      inference_loop model tokenizer rest
  end.

Definition main (args : Args) : M World unit :=
  started <- startup args;;
  let '(tokenizer, data_loader, model) := started in
  inference_loop model tokenizer (item_batches data_loader);;
  log EvDone.

End Driver.

(** ** The scorer *)

Module Scorer.

(** A sentiment tuple: its fields, as text. *)
Definition SentimentTuple : Type := list string.

(** One example: its gold tuple set and its predicted tuple set. *)
Definition Scored : Type := gset (list string) * gset (list string).

Record Counts := {
  n_tp : nat;
  n_gold : nat;
  n_pred : nat
}.

(** Modelled from the spec: the counting pass of [compute_scores], which
    [inference.py] imports from [eval_utils] and whose source is not in the
    repository snapshot.  Per example the true positives are the size of
    the intersection of the gold and the predicted set, tuples being
    compared field by field; the three totals are summed over the corpus. *)
Definition count_example (c : Counts) (ex : Scored) : Counts :=
  {| n_tp := n_tp c + size (ex.1 ∩ ex.2);
     n_gold := n_gold c + size ex.1;
     n_pred := n_pred c + size ex.2 |}.

Definition count_corpus (exs : list Scored) : Counts :=
  foldl count_example {| n_tp := 0; n_gold := 0; n_pred := 0 |} exs.

(** Division as the host language has it: a zero divisor is an error. *)
Definition divide (a b : Q) : option Q :=
  if Qeq_bool b 0 then None else Some (a / b)%Q.

Definition of_count (n : nat) : Q := inject_Z (Z.of_nat n).

Record Scores := {
  precision : Q;
  recall : Q;
  f1 : Q
}.

(** Modelled from the spec: the three metrics of [compute_scores] (absent,
    as above).  Precision is TP over the predicted count and 0 when that
    count is 0; recall is TP over the gold count and 0 when that count is
    0; F1 is the harmonic mean of the two and 0 when both are 0. *)
Definition precision_of (c : Counts) : option Q :=
  if (n_pred c =? 0)%nat then Some 0%Q
  else divide (of_count (n_tp c)) (of_count (n_pred c)).

Definition recall_of (c : Counts) : option Q :=
  if (n_gold c =? 0)%nat then Some 0%Q
  else divide (of_count (n_tp c)) (of_count (n_gold c)).

Definition f1_of (p r : Q) : option Q :=
  if Qeq_bool p 0 && Qeq_bool r 0 then Some 0%Q
  else divide (2 * p * r)%Q (p + r)%Q.

Definition compute_scores (exs : list Scored) : option Scores :=
  let c := count_corpus exs in
  p ← precision_of c;
  r ← recall_of c;
  f ← f1_of p r;
  Some {| precision := p; recall := r; f1 := f |}.

End Scorer.

(** ** A small instance of the collaborators, to run the driver on *)

Module Toy.

(** One byte per token id. *)
Definition decode_bytes (ids : list Z) : string :=
  String.string_of_list_ascii (map (λ z, Ascii.ascii_of_nat (Z.to_nat z)) ids).

Definition item (ids : list Z) : Item :=
  {| source_ids := ids; source_mask := map (λ _, 1) ids |}.

(** Sentences of one token each, numbered from 65 (the letter A). *)
Definition sentences (n : nat) : list Item :=
  map (λ i, item [65 + Z.of_nat i]) (seq 0 n).

(** A model that copies its input, cut at [max_length], and that raises on
    a batch holding an empty row. *)
Definition copy_model (ids : Tensor) (max_length : Z) : option Tensor :=
  if decide (Exists (λ row, row = []) ids) then None
  else Some (map (take (Z.to_nat max_length)) ids).

Definition torch : Torch := {|
  T5Tokenizer := string;
  T5ForConditionalGeneration := nat;
  StateDict := nat;
  Loss := Z;
  tokenizer_from_pretrained name :=
    if decide (name = "t5-base") then Some name else None;
  pad_token_id _ := 0;
  decode _ ids _ := decode_bytes ids;
  model_from_pretrained name :=
    if decide (name = "t5-base") then Some 0%nat else None;
  model_call _ _ _ _ _ := Some [0];
  generate _ ids _ max_length := copy_model ids max_length;
  load_state_dict _ sd := Some sd;
  to_device m dev := if decide (dev = "0") then Some m else None;
  eval_mode m := m;
  MyDataset _ path _ _ _ :=
    if decide (path = "five.txt") then Some (sentences 5)
    else if decide (path = "many.txt") then Some (sentences 33)
    else if decide (path = "bad.txt") then Some (sentences 32 ++ [item []])
    else None
|}.

Definition checkpoints : @Checkpoints torch := {|
  torch_load path :=
    if decide (path = "model.ckpt")
    then Some (<["hyper_parameters" :=
                   @CkptHParams torch
                     {| hp_model_name_or_path := "t5-base";
                        hp_train_batch_size := 16;
                        hp_eval_batch_size := 16 |}]>
               (<["state_dict" := @CkptStateDict torch 7%nat]> ∅))
    else if decide (path = "no_weights.ckpt")
    then Some (<["hyper_parameters" :=
                   @CkptHParams torch
                     {| hp_model_name_or_path := "t5-base";
                        hp_train_batch_size := 16;
                        hp_eval_batch_size := 16 |}]> ∅)
    else None
|}.

(** A world whose results file already holds a line. *)
Definition world : World :=
  {| fs := <[results_file := "earlier" +:+ newline]> ∅; trace := [] |}.

Definition args (path : string) : Args :=
  init_args "uabsa" path "annotation" "model.ckpt".

(** The same, with [--eval_batch_size] and [--max_seq_length] given. *)
Definition args_with (path : string) (eval_bs max_len : Z) : Args := {|
  task := "uabsa";
  file_path := path;
  model_name_or_path := "t5-base";
  paradigm := "annotation";
  do_train := false;
  do_eval := false;
  do_direct_eval := false;
  max_seq_length := max_len;
  n_gpu := "0";
  train_batch_size := 16;
  eval_batch_size := eval_bs;
  gradient_accumulation_steps := 1;
  learning_rate := (3 # 10000)%Q;
  num_train_epochs := 20;
  seed := 42;
  weight_decay := 0%Q;
  adam_epsilon := (1 # 100000000)%Q;
  warmup_steps := 0%Q;
  ckpt := "model.ckpt"
|}.

Definition run (a : Args) : result unit * World :=
  @main torch checkpoints a world.

(** A fine-tuner, and a training batch of two examples: four keys, four
    tensors, the pad token id being 0. *)
Definition fine_tuner : @T5FineTuner torch :=
  @Build_T5FineTuner torch
    {| hp_model_name_or_path := "t5-base";
       hp_train_batch_size := 16;
       hp_eval_batch_size := 16 |} 7%nat "t5-base".

Definition batch : gmap string nat :=
  <["target_ids" := 0%nat]>
    (<["source_ids" := 1%nat]>
       (<["source_mask" := 2%nat]> (<["target_mask" := 3%nat]> ∅))).

Definition heap : gmap nat Tensor :=
  <[0%nat := [[5; 7; 0; 0]; [9; 0; 0; 0]]]>
    (<[1%nat := [[3; 4; 0; 0]; [6; 0; 0; 0]]]>
       (<[2%nat := [[1; 1; 0; 0]; [1; 0; 0; 0]]]>
          (<[3%nat := [[1; 1; 0; 0]; [1; 0; 0; 0]]]> ∅))).

Definition start (a : Args)
  : result (string * DataLoader * @T5FineTuner torch) * World :=
  @startup torch checkpoints a world.

End Toy.

(** ** The driver's run, described batch by batch *)

Section Described.
Context `{Torch}.

(** [[tokenizer.decode(ids, skip_special_tokens=True) for ids in outs]] *)
Definition decode_rows (tokenizer : T5Tokenizer) (outs : Tensor)
  : list string :=
  map (λ ids, decode tokenizer ids true) outs.

(** The events of one batch whose generation returned [outs]. *)
Definition batch_events (tokenizer : T5Tokenizer)
    (done : list Item * Tensor) : list Event :=
  [ EvGenerate (map source_ids done.1) (map source_mask done.1) 128;
    EvDecode done.2;
    EvAppend results_file (decode_rows tokenizer done.2) ].

(** The events of a batch whose generation raised. *)
Definition failed_events (items : list Item) : list Event :=
  [ EvGenerate (map source_ids items) (map source_mask items) 128 ].

(** The batches that the model generated for, each with what it returned, up
    to the first batch on which [generate] raises, and that batch if there is
    one. *)
Fixpoint generated (model : T5FineTuner) (batches : list (list Item))
  : list (list Item * Tensor) * option (list Item) :=
  match batches with
  | [] => ([], None)
  | items :: rest =>
      match generate (wrapped_model model) (map source_ids items)
                     (map source_mask items) 128 with
      | None => ([], Some items)
      | Some outs =>
          let r := generated model rest in ((items, outs) :: r.1, r.2)
      end
  end.

(** Every row that was generated, in the order of generation. *)
Definition rows_of (done : list (list Item * Tensor)) : Tensor :=
  concat (map snd done).

(** The text written for them, and the file system once it is written: the
    results file is touched only when some batch got through. *)
Definition appended (tokenizer : T5Tokenizer)
    (done : list (list Item * Tensor)) : string :=
  write_lines (decode_rows tokenizer (rows_of done)).

Definition fs_after (tokenizer : T5Tokenizer)
    (done : list (list Item * Tensor)) (w : World) : gmap string string :=
  match done with
  | [] => fs w
  | _ :: _ =>
      <[results_file := contents results_file w +:+ appended tokenizer done]>
        (fs w)
  end.

End Described.

(** ** Inputs the driver cannot start from *)

Section Unusable.
Context `{Checkpoints}.

(** The input file cannot be read, whichever tokenizer is at hand. *)
Definition unreadable_input (args : Args) : Prop :=
  ∀ tok, MyDataset tok (file_path args) (paradigm args) (task args)
                   (max_seq_length args) = None.

(** The checkpoint is missing or cannot be unpickled, or it lacks the
    hyper-parameters or the weights, or its weights fit no model. *)
Definition unusable_checkpoint (args : Args) : Prop :=
  match torch_load (ckpt args) with
  | None => True
  | Some d =>
      (∀ hp, d !! "hyper_parameters" ≠ Some (CkptHParams hp))
      ∨ (∀ sd, d !! "state_dict" ≠ Some (CkptStateDict sd))
      ∨ (∀ sd m, d !! "state_dict" = Some (CkptStateDict sd) →
                 load_state_dict m sd = None)
  end.

End Unusable.

(** The events of the two loading stages, and a call of [generate] with a
    bound of 128 tokens. *)
Definition loading (e : Event) : Prop :=
  step_of e = LOAD_INPUT ∨ step_of e = LOAD_CHECKPOINT.


(** The stages of a batch, and of a whole run over [k] batches, as the driver
    takes them. *)
Definition batch_steps : list Step :=
  [GENERATE; DECODE; APPEND_TO_OUTPUT].

Definition driver_steps (k : nat) : list Step :=
  [LOAD_INPUT; LOAD_CHECKPOINT] ++ concat (replicate k batch_steps) ++ [DONE].

(** The same, as the state machine of the design document lists them. *)
Definition documented_batch_steps : list Step :=
  [ENCODE; GENERATE; DECODE; APPEND_TO_OUTPUT].

Definition documented_steps (k : nat) : list Step :=
  [LOAD_CHECKPOINT; LOAD_INPUT]
  ++ concat (replicate k documented_batch_steps) ++ [DONE].

(** ** Reading the results file back *)

(** The lines of a text, as a reader that splits at every newline sees them:
    [cur] is the line being read. *)
Fixpoint lines_from (cur : string) (s : string) : list string :=
  match s with
  | EmptyString => match cur with EmptyString => [] | _ => [cur] end
  | String a s' =>
      if Ascii.eqb a (Ascii.ascii_of_nat 10)
      then cur :: lines_from "" s'
      else lines_from (cur +:+ String a "") s'
  end.

Definition lines_of (s : string) : list string := lines_from "" s.

(** A string with no newline in it. *)
Fixpoint one_line (s : string) : bool :=
  match s with
  | EmptyString => true
  | String a s' => negb (Ascii.eqb a (Ascii.ascii_of_nat 10)) && one_line s'
  end.

(** * Properties *)

(** ** Strings *)

Lemma append_nil_r (s : string) : s +:+ "" = s.
Proof. induction s as [|a s IH]; [done|]. cbv [String.append]. fold String.append. by rewrite IH. Qed.

Lemma append_assoc (s t u : string) : (s +:+ t) +:+ u = s +:+ t +:+ u.
Proof.
  induction s as [|a s IH]; [done|].
  change (String a ((s +:+ t) +:+ u) = String a (s +:+ t +:+ u)).
  by rewrite IH.
Qed.

Lemma write_lines_app (ds es : list string) :
  write_lines (ds ++ es) = write_lines ds +:+ write_lines es.
Proof.
  induction ds as [|d ds IH]; [done|].
  cbn [app write_lines foldr]. fold (write_lines (ds ++ es)). fold (write_lines ds).
  by rewrite IH, !append_assoc.
Qed.

Lemma lines_from_line (d cur rest : string) :
  one_line d = true →
  lines_from cur (d +:+ newline +:+ rest) = (cur +:+ d) :: lines_from "" rest.
Proof.
  revert cur. induction d as [|a d IH]; intros cur Hd.
  - change (lines_from cur (String (Ascii.ascii_of_nat 10) rest)
            = (cur +:+ "") :: lines_from "" rest).
    cbn [lines_from]. rewrite Ascii.eqb_refl. by rewrite append_nil_r.
  - cbn [one_line] in Hd. apply andb_true_iff in Hd as [Ha Hd].
    change (lines_from cur (String a (d +:+ newline +:+ rest))
            = (cur +:+ String a d) :: lines_from "" rest).
    cbn [lines_from]. apply negb_true_iff in Ha. rewrite Ha.
    rewrite IH by done. f_equal. by rewrite append_assoc.
Qed.

Lemma lines_of_write_lines (ds : list string) :
  Forall (λ d, one_line d = true) ds →
  lines_of (write_lines ds) = ds.
Proof.
  induction 1 as [|d ds Hd _ IH]; [done|].
  unfold lines_of. cbn [write_lines foldr]. fold (write_lines ds).
  rewrite lines_from_line by done. f_equal. apply IH.
Qed.

(** ** The monad *)

Lemma bind_ok {S A B} (m : M S A) (k : A → M S B) s a s' :
  m s = (Ok a, s') → bind m k s = k a s'.
Proof. unfold bind. by intros ->. Qed.

Lemma bind_raise {S A B} (m : M S A) (k : A → M S B) s e s' :
  m s = (Raise e, s') → bind m k s = (Raise e, s').
Proof. unfold bind. by intros ->. Qed.

(** ** The batch sampler *)

Lemma concat_batch_sampler {A} (bs : nat) (batch l : list A) :
  concat (batch_sampler bs batch l) = batch ++ l.
Proof.
  revert batch. induction l as [|idx l IH]; intros batch.
  - destruct batch; cbn; by rewrite ?app_nil_r.
  - cbn [batch_sampler]. destruct (_ =? _)%nat.
    + cbn [concat]. rewrite IH. by rewrite <- app_assoc.
    + rewrite IH. by rewrite <- app_assoc.
Qed.

(** Every batch holds between one and [bs] items, and every batch but the
    last holds exactly [bs]. *)
Lemma batch_sampler_sizes {A} (bs : nat) (batch l : list A) :
  (length batch < bs)%nat →
  ∀ pre b post, batch_sampler bs batch l = pre ++ b :: post →
    (1 ≤ length b ≤ bs)%nat ∧ (post ≠ [] → length b = bs).
Proof.
  revert batch. induction l as [|idx l IH]; intros batch Hlt pre b post Heq.
  - cbn in Heq. destruct batch as [|x batch].
    + by destruct pre.
    + destruct pre as [|p pre]; [|by destruct pre].
      injection Heq as <- <-. cbn in *. split; [lia|done].
  - cbn [batch_sampler] in Heq.
    destruct (length (batch ++ [idx]) =? bs)%nat eqn:Hbs.
    + apply Nat.eqb_eq in Hbs. destruct pre as [|p pre].
      * injection Heq as <- _. split; [|done].
        rewrite length_app in *. cbn in *. lia.
      * injection Heq as _ Heq. eapply (IH []); [|done].
        rewrite length_app in Hbs. cbn in *. lia.
    + apply Nat.eqb_neq in Hbs. eapply (IH (batch ++ [idx])); [|done].
      rewrite length_app in *. cbn in *. lia.
Qed.

(** ** The inference loop *)

Section Loop.
Context `{Checkpoints}.

Lemma decode_rows_app tok (a b : Tensor) :
  decode_rows tok (a ++ b) = decode_rows tok a ++ decode_rows tok b.
Proof. apply map_app. Qed.

Lemma appended_cons tok items outs done :
  appended tok ((items, outs) :: done)
  = write_lines (decode_rows tok outs) +:+ appended tok done.
Proof.
  unfold appended, rows_of. cbn [map concat snd].
  by rewrite decode_rows_app, write_lines_app.
Qed.

Lemma inference_batch_ok model tok items outs w :
  generate (wrapped_model model) (map source_ids items)
           (map source_mask items) 128 = Some outs →
  inference_batch model tok items w
  = (Ok tt,
     {| fs := <[results_file := contents results_file w
                                +:+ write_lines (decode_rows tok outs)]> (fs w);
        trace := trace w ++ batch_events tok (items, outs) |}).
Proof.
  intros Hgen. unfold inference_batch, bind, log, append_lines, modify, try.
  cbn. rewrite Hgen. cbn. unfold contents. cbn.
  by rewrite <- !app_assoc.
Qed.

Lemma inference_batch_raise model tok items w :
  generate (wrapped_model model) (map source_ids items)
           (map source_mask items) 128 = None →
  inference_batch model tok items w
  = (Raise GenerateError,
     {| fs := fs w; trace := trace w ++ failed_events items |}).
Proof.
  intros Hgen. unfold inference_batch, bind, log, append_lines, modify, try.
  cbn. rewrite Hgen. cbn. by rewrite <- ?app_assoc.
Qed.

(** The loop does what [generated] says: it returns when every batch was
    generated for and raises at the first one that was not, having written
    the rows of the batches before it and nothing else. *)
Lemma inference_loop_run model tok batches w :
  inference_loop model tok batches w
  = (match (generated model batches).2 with
     | None => Ok tt
     | Some _ => Raise GenerateError
     end,
     {| fs := fs_after tok (generated model batches).1 w;
        trace := trace w
                 ++ concat (map (batch_events tok) (generated model batches).1)
                 ++ from_option failed_events [] (generated model batches).2 |}).
Proof.
  revert w. induction batches as [|items rest IH]; intros w.
  - cbn. rewrite app_nil_r. by destruct w.
  - cbn [inference_loop generated].
    destruct (generate _ _ _ _) as [outs|] eqn:Hgen.
    + erewrite bind_ok by (by apply inference_batch_ok).
      rewrite IH. cbn [fst snd map concat]. f_equal. f_equal.
      * destruct (generated model rest).1 as [|d done] eqn:Hd; cbn [fs_after fs].
        -- unfold appended, rows_of. cbn. by rewrite app_nil_r.
        -- rewrite insert_insert_eq. unfold contents at 1. cbn [fs].
           rewrite lookup_insert_eq. cbn [default].
           rewrite appended_cons. unfold id. by rewrite append_assoc.
      * cbn [trace]. by rewrite <- !app_assoc.
    + erewrite bind_raise by (by apply inference_batch_raise).
      by cbn.
Qed.

End Loop.

(** ** Before the loop *)

Section Startup.
Context `{Checkpoints}.

(** Runs the calls of [startup] one after the other, splitting on whether
    each collaborator gives a value. *)
Ltac run_startup :=
  unfold startup, T5FineTuner_init, T5FineTuner_load_state_dict, getitem,
    bind, try, log, modify, ret, raise;
  cbn;
  repeat (match goal with
          | |- context [match ?o with Some _ => _ | None => _ end] =>
              destruct o eqn:?; cbn
          | |- context [match ?v with CkptHParams _ => _ | _ => _ end] =>
              destruct v eqn:?; cbn
          end).

(** When [startup] returns, every collaborator gave a value, the loader holds
    the items of the input file, and nothing was written. *)
Lemma startup_ok args w tok dl ft w1 :
  startup args w = (Ok (tok, dl, ft), w1) →
  tokenizer_from_pretrained (model_name_or_path args) = Some tok
  ∧ MyDataset tok (file_path args) (paradigm args) (task args)
              (max_seq_length args) = Some (dataset dl)
  ∧ batch_size dl = 32%nat
  ∧ num_workers dl = 4%nat
  ∧ (∃ d hp sd m,
        torch_load (ckpt args) = Some d
        ∧ d !! "hyper_parameters" = Some (CkptHParams hp)
        ∧ d !! "state_dict" = Some (CkptStateDict sd)
        ∧ is_Some (load_state_dict m sd))
  ∧ w1 = {| fs := fs w;
            trace := trace w ++ [EvLoadInput (file_path args);
                                 EvLoadCheckpoint (ckpt args)] |}.
Proof.
  revert w1. run_startup; intros w1 Heq; try discriminate.
  injection Heq as <- <- <- <-. cbn.
  rewrite <- app_assoc. repeat split; try done.
  do 4 eexists. split; [reflexivity|]. do 2 (split; [eassumption|]).
  match goal with
  | Hl : load_state_dict _ _ = Some ?r |- _ => exists r; exact Hl
  end.
Qed.

(** When [startup] raises, nothing was written either, and at most the two
    loading stages were entered. *)
Lemma startup_raise args w e w1 :
  startup args w = (Raise e, w1) →
  fs w1 = fs w
  ∧ ∃ new, trace w1 = trace w ++ new
           ∧ new `prefix_of` [EvLoadInput (file_path args);
                              EvLoadCheckpoint (ckpt args)].
Proof.
  revert w1. run_startup; intros w1 Heq; try discriminate;
    injection Heq as <- <-; cbn; (split; [done|]);
    rewrite <- ?app_assoc; cbn.
  all: first
    [ by exists [EvLoadInput (file_path args); EvLoadCheckpoint (ckpt args)]
    | exists [EvLoadInput (file_path args)]; split; [done|];
      by exists [EvLoadCheckpoint (ckpt args)]
    | exists []; split; [by rewrite app_nil_r|]; apply prefix_nil ].
Qed.

End Startup.

(** ** Which batches are generated for *)

Section Generated.
Context `{Torch}.

Definition generates (model : T5FineTuner) (items : list Item)
    (outs : option Tensor) : Prop :=
  generate (wrapped_model model) (map source_ids items)
           (map source_mask items) 128 = outs.

(** [generated] stops at the first batch on which [generate] raises. *)
Lemma generated_spec model batches :
  Forall (λ d, generates model d.1 (Some d.2)) (generated model batches).1
  ∧ match (generated model batches).2 with
    | None => map fst (generated model batches).1 = batches
    | Some items =>
        generates model items None
        ∧ ∃ post, batches = map fst (generated model batches).1 ++ items :: post
    end.
Proof.
  induction batches as [|items rest [IH1 IH2]]; cbn [generated].
  - by split; [constructor|].
  - destruct (generate _ _ _ _) as [outs|] eqn:Hgen; cbn [fst snd map].
    + split; [constructor; [exact Hgen|exact IH1]|].
      destruct (generated model rest).2 as [bad|].
      * destruct IH2 as [Hbad [post Hpost]]. split; [done|].
        exists post. cbn. f_equal. exact Hpost.
      * by rewrite IH2.
    + split; [constructor|]. split; [done|]. by exists rest.
Qed.

Lemma generated_all model batches :
  (∀ items, items ∈ batches → generates model items None → False) →
  (generated model batches).2 = None
  ∧ map fst (generated model batches).1 = batches.
Proof.
  intros Hall. destruct (generated_spec model batches) as [_ Hspec].
  destruct (generated model batches).2 as [bad|]; [|done].
  destruct Hspec as [Hbad [post Heq]]. exfalso. apply (Hall bad); [|done].
  rewrite Heq. apply elem_of_app. right. by left.
Qed.

Lemma generated_until model pre items post :
  Forall (λ d, generates model d.1 (Some d.2)) pre →
  generates model items None →
  generated model (map fst pre ++ items :: post) = (pre, Some items).
Proof.
  intros Hpre Hbad. induction Hpre as [|[b o] pre Hd _ IH]; cbn [generated map app].
  - unfold generates in Hbad. by rewrite Hbad.
  - unfold generates in Hd. cbn [fst snd] in *. rewrite Hd, IH. done.
Qed.

End Generated.

(** ** Lists cut into aligned pieces *)

(** When every piece of the first list has as many items as the matching
    piece of the second, the item at index [i] of the first concatenation and
    the item at index [i] of the second sit in the same piece at the same
    place. *)
Lemma concat_aligned {A B} (pieces : list (list A * list B)) :
  Forall (λ d, length d.2 = length d.1) pieces →
  length (concat (map snd pieces)) = length (concat (map fst pieces))
  ∧ ∀ i x, concat (map fst pieces) !! i = Some x →
      ∃ j k d r, pieces !! j = Some d ∧ d.1 !! k = Some x ∧ d.2 !! k = Some r
                 ∧ concat (map snd pieces) !! i = Some r.
Proof.
  induction 1 as [|[a b] pieces Hd _ [IHlen IH]]; cbn [map concat fst snd] in *.
  - split; [done|]. intros i x Hi. by rewrite lookup_nil in Hi.
  - split; [rewrite !length_app; lia|].
    intros i x Hi. destruct (decide (i < length a)%nat) as [Hlt|Hge].
    + rewrite lookup_app_l in Hi by done.
      destruct (lookup_lt_is_Some_2 b i) as [r Hr]; [lia|].
      exists 0%nat, i, (a, b), r. cbn. by rewrite lookup_app_l by lia.
    + rewrite lookup_app_r in Hi by lia.
      destruct (IH _ _ Hi) as (j & k & d & r & Hj & Hx & Hr & Hcat).
      exists (S j), k, d, r. cbn. repeat split; try done.
      rewrite lookup_app_r by lia. by rewrite Hd.
Qed.

(** ** The whole run *)

Section Main.
Context `{Checkpoints}.

Lemma main_startup_raise args w e w1 :
  startup args w = (Raise e, w1) → main args w = (Raise e, w1).
Proof. intros Hs. unfold main. by erewrite bind_raise. Qed.

(** Once [startup] has returned, the run is the loop followed by the last
    stage. *)
Lemma main_started args w tok dl ft w1 :
  startup args w = (Ok (tok, dl, ft), w1) →
  main args w
  = let g := generated ft (item_batches dl) in
    match g.2 with
    | None =>
        (Ok tt,
         {| fs := fs_after tok g.1 w1;
            trace := trace w1 ++ concat (map (batch_events tok) g.1)
                     ++ [EvDone] |})
    | Some items =>
        (Raise GenerateError,
         {| fs := fs_after tok g.1 w1;
            trace := trace w1 ++ concat (map (batch_events tok) g.1)
                     ++ failed_events items |})
    end.
Proof.
  intros Hs. unfold main. erewrite bind_ok by exact Hs. cbn zeta.
  unfold bind at 1. rewrite inference_loop_run.
  destruct (generated ft (item_batches dl)).2 as [bad|]; cbn; [done|].
  unfold log, modify. cbn. by rewrite app_nil_r, <- !app_assoc.
Qed.

Lemma contents_fs_after tok done w tr :
  contents results_file {| fs := fs_after tok done w; trace := tr |}
  = contents results_file w +:+ appended tok done.
Proof.
  destruct done as [|d done]; unfold contents; cbn [fs fs_after].
  - unfold appended. cbn. by rewrite append_nil_r.
  - by rewrite lookup_insert_eq.
Qed.

Lemma fs_after_other tok done w path :
  path ≠ results_file → fs_after tok done w !! path = fs w !! path.
Proof.
  intros Hne. destruct done; cbn [fs_after]; [done|].
  by rewrite lookup_insert_ne.
Qed.

(** C1.  When the run starts and the generation service returns one row for
    each row of every batch, the run ends normally; the batches it went
    through, in order, are the input examples cut into consecutive pieces;
    the text appended to the results file is one written line per generated
    row, in that order; and the line at index [i] decodes the row generated
    for the example at index [i], at the same place of the same batch.  When
    no decoded string holds a newline, splitting the appended text at
    newlines gives back exactly those lines, one per example. *)
Theorem output_lines_follow_input args w tok dl ft w1 :
  startup args w = (Ok (tok, dl, ft), w1) →
  (∀ items, items ∈ item_batches dl →
     ∃ outs, generates ft items (Some outs) ∧ length outs = length items) →
  ∃ done w',
    main args w = (Ok tt, w')
    ∧ MyDataset tok (file_path args) (paradigm args) (task args)
                (max_seq_length args) = Some (concat (map fst done))
    ∧ map fst done = item_batches dl
    ∧ Forall (λ d, generates ft d.1 (Some d.2)) done
    ∧ trace w' = trace w1 ++ concat (map (batch_events tok) done) ++ [EvDone]
    ∧ length (decode_rows tok (rows_of done)) = length (concat (map fst done))
    ∧ contents results_file w'
      = contents results_file w
        +:+ write_lines (decode_rows tok (rows_of done))
    ∧ (Forall (λ line, one_line line = true) (decode_rows tok (rows_of done)) →
       lines_of (write_lines (decode_rows tok (rows_of done)))
       = decode_rows tok (rows_of done))
    ∧ (∀ i x, concat (map fst done) !! i = Some x →
         ∃ j k d r, done !! j = Some d
                    ∧ d.1 !! k = Some x
                    ∧ d.2 !! k = Some r
                    ∧ decode_rows tok (rows_of done) !! i
                      = Some (decode tok r true)).
Proof.
  intros Hs Hgen.
  destruct (generated_all ft (item_batches dl)) as [Hnone Hfst].
  { intros items Hin Hbad. destruct (Hgen items Hin) as (outs & Hout & _).
    unfold generates in *. congruence. }
  destruct (generated_spec ft (item_batches dl)) as [Hdone _].
  pose proof (main_started _ _ _ _ _ _ Hs) as Hmain. cbn zeta in Hmain.
  rewrite Hnone in Hmain.
  destruct (startup_ok _ _ _ _ _ _ Hs) as (_ & Hdata & _ & _ & _ & Hw1).
  set (done := (generated ft (item_batches dl)).1) in *.
  assert (Forall (λ d : list Item * Tensor, length d.2 = length d.1) done)
    as Hlen.
  { apply Forall_forall. intros d Hd.
    destruct (Hgen d.1) as (outs & Hout & Hl).
    - rewrite <- Hfst. apply list_elem_of_fmap. by exists d.
    - rewrite Forall_forall in Hdone. specialize (Hdone d Hd).
      unfold generates in *. congruence. }
  destruct (concat_aligned done Hlen) as [Hcount Hplace].
  eexists done, _. split; [exact Hmain|].
  split. { rewrite Hfst. unfold item_batches.
           by rewrite concat_batch_sampler. }
  split; [done|]. split; [done|]. split; [done|].
  split. { unfold decode_rows, rows_of. by rewrite length_map. }
  split. { rewrite contents_fs_after. rewrite Hw1. done. }
  split. { apply lines_of_write_lines. }
  intros i x Hi. destruct (Hplace i x Hi) as (j & k & d & r & Hj & Hx & Hr & Hc).
  exists j, k, d, r. repeat split; try done.
  unfold decode_rows, rows_of, Tensor in *. by rewrite list_lookup_fmap, Hc.
Qed.

(** C2.  Whatever the run does and however it ends, the results file holds
    afterwards what it held before followed by what the run added, and no
    other file is touched. *)
Theorem results_file_only_grows args w :
  ∃ added,
    contents results_file (main args w).2
    = contents results_file w +:+ added
    ∧ ∀ path, path ≠ results_file →
        fs (main args w).2 !! path = fs w !! path.
Proof.
  destruct (startup args w) as [[[[tok dl] ft]|e] w1] eqn:Hs.
  - rewrite (main_started _ _ _ _ _ _ Hs). cbn zeta.
    destruct (startup_ok _ _ _ _ _ _ Hs) as (_ & _ & _ & _ & _ & Hw1).
    exists (appended tok (generated ft (item_batches dl)).1).
    destruct (generated ft (item_batches dl)).2; cbn [snd fs];
      (split; [rewrite contents_fs_after; by rewrite Hw1|]);
      intros path Hne; rewrite fs_after_other by done; by rewrite Hw1.
  - rewrite (main_startup_raise _ _ _ _ Hs). cbn [snd].
    destruct (startup_raise _ _ _ _ Hs) as [Hfs _].
    exists "". unfold contents. by rewrite Hfs, append_nil_r.
Qed.

End Main.

(** The run over 33 one-token sentences: two batches, 33 lines. *)
Lemma output_lines_follow_input_witness :
  ∃ done w',
    Toy.run (Toy.args "many.txt") = (Ok tt, w')
    ∧ map (λ d, length d.1) done = [32; 1]%nat
    ∧ length (@decode_rows Toy.torch "t5-base" (rows_of done)) = 33%nat
    ∧ contents results_file w'
      = contents results_file Toy.world
        +:+ write_lines (@decode_rows Toy.torch "t5-base" (rows_of done)).
Proof.
  edestruct (@output_lines_follow_input Toy.torch Toy.checkpoints
               (Toy.args "many.txt") Toy.world)
    as (done & w' & Hmain & Hdata & Hfst & _ & _ & Hlen & Hfile & _ & _).
  - lazy. reflexivity.
  - intros items Hin. apply list_elem_of_In in Hin. vm_compute in Hin.
    destruct Hin as [<-|[<-|[]]]; eexists; (split; [lazy; reflexivity|done]).
  - exists done, w'. split; [exact Hmain|].
    split. { rewrite <- (map_map fst length), Hfst. by vm_compute. }
    split; [|exact Hfile].
    rewrite Hlen. injection Hdata as <-. by vm_compute.
Defined.

(** ** The order of the stages *)

Section Stages.
Context `{Checkpoints}.

Lemma steps_of_batches tok (done : list (list Item * Tensor)) :
  map step_of (concat (map (batch_events tok) done))
  = concat (replicate (length done) batch_steps).
Proof.
  induction done as [|d done IH]; [done|].
  cbn [map concat length replicate]. rewrite map_app, IH. done.
Qed.

Lemma concat_replicate_end {A} (k : nat) (b : list A) :
  concat (replicate (S k) b) = concat (replicate k b) ++ b.
Proof.
  rewrite replicate_S_end, concat_app. cbn [concat]. by rewrite app_nil_r.
Qed.

(** C3, as the driver does it.  In every run the stages entered, from first
    to last, are a beginning of: the input is loaded, then the checkpoint,
    then each batch in turn is generated for, decoded and appended to the
    output, and then the run is done; the number of batches in that sequence
    is the number the loader yields.  A run that ends normally goes through
    all of them.  No stage of the loop encodes. *)
Theorem stages_in_driver_order args w :
  ∃ new k,
    trace (main args w).2 = trace w ++ new
    ∧ map step_of new `prefix_of` driver_steps k
    ∧ ((main args w).1 = Ok tt → map step_of new = driver_steps k)
    ∧ (∀ tok dl ft w1, startup args w = (Ok (tok, dl, ft), w1) →
         k = length (item_batches dl))
    ∧ ENCODE ∉ map step_of new.
Proof.
  assert (∀ evs, ENCODE ∉ map step_of evs) as Hnever.
  { intros evs Hin. apply list_elem_of_fmap in Hin as (ev & Hev & _).
    by destruct ev. }
  destruct (startup args w) as [[[[tok dl] ft]|e] w1] eqn:Hs.
  - rewrite (main_started _ _ _ _ _ _ Hs). cbn zeta.
    destruct (startup_ok _ _ _ _ _ _ Hs) as (_ & _ & _ & _ & _ & ->).
    destruct (generated_spec ft (item_batches dl)) as [_ Hspec].
    set (done := (generated ft (item_batches dl)).1) in *.
    destruct (generated ft (item_batches dl)).2 as [bad|]; cbn [fst snd trace].
    + destruct Hspec as [_ [post Hpost]].
      exists ([EvLoadInput (file_path args); EvLoadCheckpoint (ckpt args)]
              ++ concat (map (batch_events tok) done) ++ failed_events bad),
             (length (item_batches dl)).
      split; [by rewrite <- app_assoc|]. split; [|split; [done|split]].
      * rewrite !map_app, steps_of_batches. unfold driver_steps.
        rewrite Hpost, length_app, length_map. cbn [length].
        rewrite replicate_add, concat_app. cbn [replicate concat].
        rewrite <- !app_assoc. do 2 apply prefix_app.
        by eexists.
      * intros ???? Heq. by injection Heq as _ <- _ _.
      * apply Hnever.
    + exists ([EvLoadInput (file_path args); EvLoadCheckpoint (ckpt args)]
              ++ concat (map (batch_events tok) done) ++ [EvDone]),
             (length (item_batches dl)).
      split; [by rewrite <- app_assoc|].
      assert (length done = length (item_batches dl)) as Hlen
        by (by rewrite <- Hspec, length_map).
      assert (map step_of
                ([EvLoadInput (file_path args); EvLoadCheckpoint (ckpt args)]
                 ++ concat (map (batch_events tok) done) ++ [EvDone])
              = driver_steps (length (item_batches dl))) as Hsteps
        by (by rewrite !map_app, steps_of_batches, Hlen).
      split; [by rewrite Hsteps|]. split; [done|]. split; [|apply Hnever].
      intros ???? Heq. by injection Heq as _ <- _ _.
  - rewrite (main_startup_raise _ _ _ _ Hs). cbn [fst snd].
    destruct (startup_raise _ _ _ _ Hs) as (_ & new & Htr & [rest Hrest]).
    exists new, 0%nat. split; [done|]. split; [|split; [done|split]].
    + unfold driver_steps. cbn.
      exists (map step_of rest ++ [DONE]).
      change [LOAD_INPUT; LOAD_CHECKPOINT; DONE]
        with (map step_of [EvLoadInput (file_path args);
                           EvLoadCheckpoint (ckpt args)] ++ [DONE]).
      by rewrite Hrest, map_app, <- app_assoc.
    + intros ???? Heq. discriminate.
    + apply Hnever.
Qed.

End Stages.

(** C3, as documented: the run over five sentences ends normally, yet its
    stages are not the documented sequence for any number of batches; the
    input is loaded first and the checkpoint second. *)
Lemma stages_not_in_documented_order :
  (Toy.run (Toy.args "five.txt")).1 = Ok tt
  ∧ map step_of (trace (Toy.run (Toy.args "five.txt")).2)
    = [LOAD_INPUT; LOAD_CHECKPOINT; GENERATE; DECODE; APPEND_TO_OUTPUT; DONE]
  ∧ ¬ ∃ k, map step_of (trace (Toy.run (Toy.args "five.txt")).2)
           = documented_steps k.
Proof.
  split; [by vm_compute|]. split; [by vm_compute|].
  intros [k Hk]. vm_compute in Hk. destruct k; discriminate.
Qed.

(** ** The batch size, the length bound and the failures *)

Section Settings.
Context `{Checkpoints}.

(** C4, as the driver does it.  Whatever the arguments, when the run starts
    its loader has batch size 32: every batch it yields holds between 1 and
    32 examples, and every batch but the last holds exactly 32. *)
Theorem loader_batch_size_is_32 args w tok dl ft w1 :
  startup args w = (Ok (tok, dl, ft), w1) →
  batch_size dl = 32%nat
  ∧ ∀ pre b post, item_batches dl = pre ++ b :: post →
      (1 ≤ length b ≤ 32)%nat ∧ (post ≠ [] → length b = 32%nat).
Proof.
  intros Hs. destruct (startup_ok _ _ _ _ _ _ Hs) as (_ & _ & Hbs & _).
  split; [done|]. intros pre b post Heq. unfold item_batches in Heq.
  rewrite Hbs in Heq. eapply (batch_sampler_sizes 32 []); [cbn; lia|done].
Qed.


(** C7.  When the run has started and the generation service raises on some
    batch after returning for the batches before it, the run ends with that
    exception: the events after the start are those of the earlier batches
    followed by the one failed call, so there is one call of the service per
    batch up to and including the failing one and none for a later batch,
    and the results file holds the rows of the earlier batches only. *)
Theorem generation_failure_aborts args w tok dl ft w1 pre items post :
  startup args w = (Ok (tok, dl, ft), w1) →
  item_batches dl = map fst pre ++ items :: post →
  Forall (λ d, generates ft d.1 (Some d.2)) pre →
  generates ft items None →
  ∃ w',
    main args w = (Raise GenerateError, w')
    ∧ trace w' = trace w1 ++ concat (map (batch_events tok) pre)
                 ++ failed_events items
    ∧ length (filter (λ e, step_of e = GENERATE)
                (concat (map (batch_events tok) pre) ++ failed_events items))
      = S (length pre)
    ∧ contents results_file w'
      = contents results_file w +:+ appended tok pre.
Proof.
  intros Hs Hb Hpre Hbad.
  rewrite (main_started _ _ _ _ _ _ Hs). cbn zeta.
  rewrite Hb, (generated_until ft pre items post Hpre Hbad). cbn [fst snd].
  destruct (startup_ok _ _ _ _ _ _ Hs) as (_ & _ & _ & _ & _ & Hw1).
  eexists. split; [done|]. split; [done|]. split.
  - clear. rewrite filter_app, length_app.
    replace (length (filter (λ e, step_of e = GENERATE) (failed_events items)))
      with 1%nat by done.
    induction pre as [|d pre IH]; [done|].
    cbn [map concat length]. rewrite filter_app, length_app.
    replace (length (filter (λ e, step_of e = GENERATE) (batch_events tok d)))
      with 1%nat by done.
    lia.
  - rewrite contents_fs_after. by rewrite Hw1.
Qed.

(** C8.  When the input file cannot be read or the checkpoint cannot be used,
    the run ends with an exception before the loop: the file system is as it
    was, and the only stages entered are loading stages, so nothing was
    generated, decoded or written. *)
Theorem bad_input_or_checkpoint_is_fatal args w :
  unreadable_input args ∨ unusable_checkpoint args →
  ∃ e w',
    main args w = (Raise e, w')
    ∧ fs w' = fs w
    ∧ ∃ new, trace w' = trace w ++ new ∧ Forall loading new.
Proof.
  intros Hbad.
  destruct (startup args w) as [[[[tok dl] ft]|e] w1] eqn:Hs.
  - exfalso.
    destruct (startup_ok _ _ _ _ _ _ Hs)
      as (_ & Hdata & _ & _ & (d & hp & sd & m & Hload & Hhp & Hsd & Hfit) & _).
    destruct Hbad as [Hin|Hck].
    + specialize (Hin tok). congruence.
    + unfold unusable_checkpoint in Hck. rewrite Hload in Hck.
      destruct Hck as [Hck|[Hck|Hck]].
      * by apply (Hck hp).
      * by apply (Hck sd).
      * rewrite (Hck sd m Hsd) in Hfit. by destruct Hfit.
  - exists e, w1. split; [by apply main_startup_raise|].
    destruct (startup_raise _ _ _ _ Hs) as (Hfs & new & Htr & [rest Hrest]).
    split; [done|]. exists new. split; [done|].
    assert (Forall loading (new ++ rest)) as Hall.
    { rewrite <- Hrest. constructor; [by left|].
      constructor; [by right|]. constructor. }
    by apply Forall_app in Hall as [? _].
Qed.

End Settings.

(** ** The driver on the small instance *)

(** With [--eval_batch_size 8] and 33 sentences the loader still yields a
    batch of 32 and a batch of 1. *)
Lemma loader_batch_size_is_32_witness :
  ∃ tok dl ft w1,
    Toy.start (Toy.args_with "many.txt" 8 128) = (Ok (tok, dl, ft), w1)
    ∧ batch_size dl = 32%nat
    ∧ ∀ pre b post, item_batches dl = pre ++ b :: post →
        (1 ≤ length b ≤ 32)%nat ∧ (post ≠ [] → length b = 32%nat).
Proof.
  do 4 eexists. split; [lazy; reflexivity|].
  eapply (@loader_batch_size_is_32 Toy.torch Toy.checkpoints
            (Toy.args_with "many.txt" 8 128) Toy.world).
  lazy. reflexivity.
Defined.

(** C4, as documented: started with [--eval_batch_size 8], the loader's
    batch size is not 8, and the batches it yields hold 32 and 1 examples. *)
Lemma loader_ignores_eval_batch_size :
  ∃ tok dl ft w1,
    Toy.start (Toy.args_with "many.txt" 8 128) = (Ok (tok, dl, ft), w1)
    ∧ eval_batch_size (Toy.args_with "many.txt" 8 128) = 8
    ∧ Z.of_nat (batch_size dl) ≠ eval_batch_size (Toy.args_with "many.txt" 8 128)
    ∧ map length (item_batches dl) = [32; 1]%nat.
Proof.
  do 4 eexists. split; [lazy; reflexivity|].
  split; [done|]. split; [by vm_compute|]. by vm_compute.
Qed.

(** With [--max_seq_length 64] the service is still asked for 128 tokens. *)
Example generate_bound_with_max_seq_length_64 :
  filter (λ e, step_of e = GENERATE)
         (trace (Toy.run (Toy.args_with "five.txt" 16 64)).2)
  = [EvGenerate [[65]; [66]; [67]; [68]; [69]] [[1]; [1]; [1]; [1]; [1]] 128].
Proof. by vm_compute. Qed.

(** The model raises on the second batch of [bad.txt]: the run stops there,
    after 32 lines. *)
Lemma generation_failure_aborts_witness :
  ∃ w',
    Toy.run (Toy.args "bad.txt") = (Raise GenerateError, w')
    ∧ map step_of (trace w')
      = [LOAD_INPUT; LOAD_CHECKPOINT; GENERATE; DECODE; APPEND_TO_OUTPUT;
         GENERATE]
    ∧ length (lines_of (contents results_file w')) = 33%nat.
Proof.
  destruct (@generation_failure_aborts Toy.torch Toy.checkpoints
              (Toy.args "bad.txt") Toy.world
              "t5-base"
              {| dataset := Toy.sentences 32 ++ [Toy.item []];
                 batch_size := 32; num_workers := 4 |}
              (@Build_T5FineTuner Toy.torch
                 {| hp_model_name_or_path := "t5-base";
                    hp_train_batch_size := 16;
                    hp_eval_batch_size := 16 |} 7%nat "t5-base")
              {| fs := fs Toy.world;
                 trace := [EvLoadInput "bad.txt";
                           EvLoadCheckpoint "model.ckpt"] |}
              [(Toy.sentences 32, map source_ids (Toy.sentences 32))]
              [Toy.item []] [])
    as (w' & Hmain & Htrace & _ & Hfile).
  - by vm_compute.
  - by vm_compute.
  - constructor; [by vm_compute|constructor].
  - by vm_compute.
  - exists w'. split; [exact Hmain|]. rewrite Htrace, Hfile.
    split; by vm_compute.
Defined.

(** No file is called [none.txt]: the run ends before the loop. *)
Lemma bad_input_or_checkpoint_is_fatal_witness :
  ∃ e w',
    Toy.run (Toy.args "none.txt") = (Raise e, w')
    ∧ fs w' = fs Toy.world
    ∧ ∃ new, trace w' = trace Toy.world ++ new ∧ Forall loading new.
Proof.
  apply (@bad_input_or_checkpoint_is_fatal Toy.torch Toy.checkpoints
           (Toy.args "none.txt") Toy.world).
  left. intros tok. reflexivity.
Defined.

(** A checkpoint without weights is as fatal. *)
Example checkpoint_without_weights :
  Toy.run (init_args "uabsa" "five.txt" "annotation" "no_weights.ckpt")
  = (Raise (KeyError "state_dict"),
     {| fs := fs Toy.world;
        trace := [EvLoadInput "five.txt";
                  EvLoadCheckpoint "no_weights.ckpt"] |}).
Proof. by vm_compute. Qed.

(** ** [_step] and the labels it rewrites *)

Section Step.
Context `{Torch}.

(** The entry at row [i], column [j] of a tensor, when there is one. *)
Definition entry (t : Tensor) (i j : nat) : option Z :=
  t !! i ≫= λ row, row !! j.

Lemma entry_masked_fill pad v t i j :
  entry (masked_fill pad v t) i j
  = (λ x, if x =? pad then v else x) <$> entry t i j.
Proof.
  unfold entry, masked_fill, Tensor in *.
  revert i. induction t as [|row t IH]; intros [|i]; cbn; try done.
  clear. revert j. induction row as [|x row IH]; intros [|j]; cbn; done.
Qed.

(** Whatever the model then does, [_step] leaves the heap with the labels
    rewritten and nothing else changed. *)
Lemma step_heap self (batch : gmap string nat) (h : gmap nat Tensor) r t :
  batch !! "target_ids" = Some r →
  h !! r = Some t →
  (_step self batch h).2
  = <[r := masked_fill (pad_token_id (tokenizer self)) (-100) t]> h.
Proof.
  intros Hkey Hr.
  unfold _step, masked_assign, forward, getitem, deref, bind, try, modify,
    ret, raise.
  rewrite Hkey. cbn. rewrite Hr. cbn.
  repeat (match goal with
          | |- context [match ?o with Some _ => _ | None => _ end] =>
              destruct o eqn:?; cbn
          end); done.
Qed.

(** C9.  For a batch whose ["target_ids"] tensor is not the tensor of another
    key, [_step] rewrites that tensor where it is: an entry equal to the pad
    token id becomes -100 and every other entry keeps its value and its
    place; the tensors under the other keys, and every other tensor, are as
    they were. *)
Theorem step_relabels_padding self (batch : gmap string nat)
    (h : gmap nat Tensor) r t :
  batch !! "target_ids" = Some r →
  h !! r = Some t →
  (∀ key r', key ≠ "target_ids" → batch !! key = Some r' → r' ≠ r) →
  ∃ t',
    (_step self batch h).2 !! r = Some t'
    ∧ (∀ i j, entry t' i j
              = (λ x, if x =? pad_token_id (tokenizer self) then -100 else x)
                <$> entry t i j)
    ∧ (∀ key r', key ∈ ["source_ids"; "source_mask"; "target_mask"] →
                 batch !! key = Some r' →
                 (_step self batch h).2 !! r' = h !! r')
    ∧ (∀ r', r' ≠ r → (_step self batch h).2 !! r' = h !! r').
Proof.
  intros Hkey Hr Hdistinct. rewrite (step_heap self batch h r t Hkey Hr).
  exists (masked_fill (pad_token_id (tokenizer self)) (-100) t).
  split; [by rewrite lookup_insert_eq|].
  split; [intros i j; apply entry_masked_fill|].
  split.
  - intros key r' Hin Hr'. rewrite lookup_insert_ne; [done|].
    intros <-. apply (Hdistinct key r); [|done|done].
    intros ->. rewrite !elem_of_cons, elem_of_nil in Hin.
    by destruct Hin as [?|[?|[?|?]]].
  - intros r' Hne. by rewrite lookup_insert_ne.
Qed.

End Step.

(** A batch of two target rows padded with 0: the pads become -100 and the
    source tensor keeps its zeros. *)
Lemma step_relabels_padding_witness :
  ∃ t',
    (@_step Toy.torch Toy.fine_tuner Toy.batch Toy.heap).2 !! 0%nat = Some t'
    ∧ t' = [[5; 7; -100; -100]; [9; -100; -100; -100]]
    ∧ (@_step Toy.torch Toy.fine_tuner Toy.batch Toy.heap).2 !! 1%nat
      = Some [[3; 4; 0; 0]; [6; 0; 0; 0]].
Proof.
  destruct (@step_relabels_padding Toy.torch Toy.fine_tuner Toy.batch Toy.heap
              0%nat [[5; 7; 0; 0]; [9; 0; 0; 0]])
    as (t' & Ht' & _ & Hkeys & _).
  - by vm_compute.
  - by vm_compute.
  - intros key r' Hkey Hr' ->. apply Hkey. clear Hkey. revert Hr'.
    unfold Toy.batch.
    rewrite !lookup_insert. by repeat case_decide.
  - exists t'. split; [exact Ht'|]. split.
    + vm_compute in Ht'. by injection Ht' as <-.
    + etrans; [apply (Hkeys "source_ids" 1%nat)|by vm_compute].
      * apply elem_of_cons. by left.
      * by vm_compute.
Defined.

(** ** The scorer *)

Module ScorerProofs.
Import Scorer.

(** The true positives are counted among the predicted and among the gold
    tuples. *)
Lemma count_example_bounds c ex :
  (n_tp c ≤ n_gold c)%nat → (n_tp c ≤ n_pred c)%nat →
  (n_tp (count_example c ex) ≤ n_gold (count_example c ex))%nat
  ∧ (n_tp (count_example c ex) ≤ n_pred (count_example c ex))%nat.
Proof.
  intros Hg Hp. cbn.
  pose proof (subseteq_size _ _ (intersection_subseteq_l ex.1 ex.2)).
  pose proof (subseteq_size _ _ (intersection_subseteq_r ex.1 ex.2)).
  lia.
Qed.

Lemma count_corpus_bounds exs :
  (n_tp (count_corpus exs) ≤ n_gold (count_corpus exs))%nat
  ∧ (n_tp (count_corpus exs) ≤ n_pred (count_corpus exs))%nat.
Proof.
  unfold count_corpus.
  assert (∀ c, (n_tp c ≤ n_gold c)%nat → (n_tp c ≤ n_pred c)%nat →
               (n_tp (foldl count_example c exs)
                ≤ n_gold (foldl count_example c exs))%nat
               ∧ (n_tp (foldl count_example c exs)
                  ≤ n_pred (foldl count_example c exs))%nat) as Hinv.
  { induction exs as [|ex exs IH]; intros c Hg Hp; [done|].
    cbn [foldl]. by apply IH; apply count_example_bounds. }
  apply Hinv; cbn; lia.
Qed.

Lemma of_count_nonneg n : (0 <= of_count n)%Q.
Proof.
  unfold of_count. change 0%Q with (inject_Z 0).
  rewrite <- Zle_Qle. lia.
Qed.

Lemma of_count_pos n : n ≠ 0%nat → (0 < of_count n)%Q.
Proof.
  intros Hn. unfold of_count. change 0%Q with (inject_Z 0).
  rewrite <- Zlt_Qlt. lia.
Qed.

Lemma of_count_le n m : (n ≤ m)%nat → (of_count n <= of_count m)%Q.
Proof. intros Hle. unfold of_count. rewrite <- Zle_Qle. lia. Qed.

(** A count over a larger count that is not 0: the division is defined and
    its value lies between 0 and 1. *)
Lemma divide_counts n m :
  (n ≤ m)%nat → m ≠ 0%nat →
  divide (of_count n) (of_count m) = Some (of_count n / of_count m)%Q
  ∧ (0 <= of_count n / of_count m)%Q
  ∧ (of_count n / of_count m <= 1)%Q.
Proof.
  intros Hle Hm. pose proof (of_count_pos m Hm) as Hpos.
  split; [|split].
  - unfold divide. destruct (Qeq_bool (of_count m) 0) eqn:Hz; [|done].
    apply Qeq_bool_eq in Hz. rewrite Hz in Hpos. by apply Qlt_irrefl in Hpos.
  - apply Qle_shift_div_l; [done|]. rewrite Qmult_0_l. apply of_count_nonneg.
  - apply Qle_shift_div_r; [done|]. rewrite Qmult_1_l. by apply of_count_le.
Qed.

(** The harmonic mean of two numbers between 0 and 1: the division is
    defined unless both are 0, and the value lies between 0 and 1. *)
Lemma f1_of_bounds (p r : Q) :
  (0 <= p)%Q → (p <= 1)%Q → (0 <= r)%Q → (r <= 1)%Q →
  ∃ f, f1_of p r = Some f
       ∧ f = (if Qeq_bool p 0 && Qeq_bool r 0 then 0 else 2 * p * r / (p + r))%Q
       ∧ (0 <= f)%Q ∧ (f <= 1)%Q.
Proof.
  intros Hp0 Hp1 Hr0 Hr1. unfold f1_of.
  destruct (Qeq_bool p 0 && Qeq_bool r 0) eqn:Hboth.
  - exists 0%Q. repeat split; try done.
  - assert (0 < p + r)%Q as Hpos.
    { apply andb_false_iff in Hboth as [Hz|Hz];
        apply Qeq_bool_neq in Hz; lra. }
    exists (2 * p * r / (p + r))%Q. split; [|split; [done|split]].
    + unfold divide. destruct (Qeq_bool (p + r) 0) eqn:Hz; [|done].
      apply Qeq_bool_eq in Hz. lra.
    + apply Qle_shift_div_l; [done|]. nra.
    + apply Qle_shift_div_r; [done|]. nra.
Qed.

(** C6.  For every list of gold and predicted tuple sets the scorer returns
    its three metrics, no division failing: precision is TP over the
    predicted count and 0 when that count is 0, recall is TP over the gold
    count and 0 when that count is 0, F1 is the harmonic mean of the two and
    0 when both are 0; and each of the three lies between 0 and 1. *)
Theorem scores_defined_and_bounded (exs : list Scored) :
  ∃ s,
    compute_scores exs = Some s
    ∧ precision s
      = (if (n_pred (count_corpus exs) =? 0)%nat then 0
         else of_count (n_tp (count_corpus exs))
              / of_count (n_pred (count_corpus exs)))%Q
    ∧ recall s
      = (if (n_gold (count_corpus exs) =? 0)%nat then 0
         else of_count (n_tp (count_corpus exs))
              / of_count (n_gold (count_corpus exs)))%Q
    ∧ f1 s
      = (if Qeq_bool (precision s) 0 && Qeq_bool (recall s) 0 then 0
         else 2 * precision s * recall s / (precision s + recall s))%Q
    ∧ (0 <= precision s)%Q ∧ (precision s <= 1)%Q
    ∧ (0 <= recall s)%Q ∧ (recall s <= 1)%Q
    ∧ (0 <= f1 s)%Q ∧ (f1 s <= 1)%Q.
Proof.
  destruct (count_corpus_bounds exs) as [Hg Hp].
  unfold compute_scores, precision_of, recall_of.
  set (c := count_corpus exs) in *.
  assert (∃ p, (if (n_pred c =? 0)%nat then Some 0%Q
                else divide (of_count (n_tp c)) (of_count (n_pred c)))
               = Some p
               ∧ p = (if (n_pred c =? 0)%nat then 0
                      else of_count (n_tp c) / of_count (n_pred c))%Q
               ∧ (0 <= p)%Q ∧ (p <= 1)%Q) as (p & -> & Hpv & Hp0 & Hp1).
  { destruct (n_pred c =? 0)%nat eqn:Hz.
    - exists 0%Q. repeat split; done.
    - apply Nat.eqb_neq in Hz.
      destruct (divide_counts (n_tp c) (n_pred c) Hp Hz) as (-> & ? & ?).
      eexists. repeat split; done. }
  assert (∃ r, (if (n_gold c =? 0)%nat then Some 0%Q
                else divide (of_count (n_tp c)) (of_count (n_gold c)))
               = Some r
               ∧ r = (if (n_gold c =? 0)%nat then 0
                      else of_count (n_tp c) / of_count (n_gold c))%Q
               ∧ (0 <= r)%Q ∧ (r <= 1)%Q) as (r & -> & Hrv & Hr0 & Hr1).
  { destruct (n_gold c =? 0)%nat eqn:Hz.
    - exists 0%Q. repeat split; done.
    - apply Nat.eqb_neq in Hz.
      destruct (divide_counts (n_tp c) (n_gold c) Hg Hz) as (-> & ? & ?).
      eexists. repeat split; done. }
  destruct (f1_of_bounds p r Hp0 Hp1 Hr0 Hr1) as (f & Hf & Hfv & Hf0 & Hf1).
  cbn. rewrite Hf. cbn.
  exists {| precision := p; recall := r; f1 := f |}. cbn.
  repeat split; done.
Qed.

(** The aggregation example of the design document: one example with one
    matching tuple, one with a gold tuple and no prediction. *)
Example scores_of_two_examples :
  compute_scores [ ({[ ["food"; "POS"] ]}, {[ ["food"; "POS"] ]});
                   ({[ ["wine"; "NEG"] ]}, ∅) ]
  = Some {| precision := (1 / 1)%Q;
            recall := (1 / 2)%Q;
            f1 := (2 * (1 / 1) * (1 / 2) / (1 / 1 + 1 / 2))%Q |}.
Proof. by vm_compute. Qed.

(** No prediction and no gold tuple at all: the three metrics are 0. *)
Example scores_of_nothing :
  compute_scores [] = Some {| precision := 0; recall := 0; f1 := 0 |}.
Proof. by vm_compute. Qed.

End ScorerProofs.

(** * Further properties *)

(** ** [_step]: missing keys, repetition, and what the model is given *)

Section StepEdges.
Context `{Torch}.

Lemma masked_fill_twice pad t :
  masked_fill pad (-100) (masked_fill pad (-100) t) = masked_fill pad (-100) t.
Proof.
  unfold masked_fill. rewrite map_map. apply map_ext. intros row.
  rewrite map_map. apply map_ext. intros x.
  destruct (x =? pad) eqn:Hx; [|by rewrite Hx].
  by destruct (-100 =? pad).
Qed.

(** Without a ["target_ids"] key the step raises [KeyError] at its first
    line and no tensor is touched. *)
Theorem step_without_target_ids self (batch : gmap string nat)
    (h : gmap nat Tensor) :
  batch !! "target_ids" = None →
  _step self batch h = (Raise (KeyError "target_ids"), h).
Proof.
  intros Hkey. unfold _step, getitem, bind, try, raise. by rewrite Hkey.
Qed.

(** With ["target_ids"] present but one of the three other keys missing, the
    step raises [KeyError] for the first missing one, in the order in which
    the call looks them up, and the labels are rewritten all the same: the
    assignment comes before the lookups. *)
Theorem step_rewrites_before_key_error self (batch : gmap string nat)
    (h : gmap nat Tensor) r t :
  batch !! "target_ids" = Some r →
  h !! r = Some t →
  (batch !! "source_ids" = None ∨ batch !! "source_mask" = None
   ∨ batch !! "target_mask" = None) →
  ∃ found key later,
    _step self batch h
    = (Raise (KeyError key),
       <[r := masked_fill (pad_token_id (tokenizer self)) (-100) t]> h)
    ∧ ["source_ids"; "source_mask"; "target_mask"] = found ++ key :: later
    ∧ Forall (λ k, is_Some (batch !! k)) found
    ∧ batch !! key = None.
Proof.
  intros Hkey Hr Hmiss.
  unfold _step, masked_assign, forward, getitem, deref, bind, try, modify,
    ret, raise.
  rewrite Hkey. cbn. rewrite Hr. cbn.
  destruct (batch !! "source_ids") as [rs|] eqn:Hs; cbn.
  2:{ exists [], "source_ids", ["source_mask"; "target_mask"].
      repeat split; try done. }
  destruct (batch !! "source_mask") as [rm|] eqn:Hm; cbn.
  2:{ exists ["source_ids"], "source_mask", ["target_mask"].
      repeat split; try done. repeat constructor. by rewrite Hs. }
  destruct (batch !! "target_mask") as [rt|] eqn:Ht; cbn.
  2:{ exists ["source_ids"; "source_mask"], "target_mask", [].
      repeat split; try done.
      repeat constructor; [by rewrite Hs|by rewrite Hm]. }
  by destruct Hmiss as [?|[?|?]].
Qed.

End StepEdges.

Section StepRepeated.
Context `{Torch}.

(** The heap that [_step] leaves, whatever the batch and the heap are. *)
Lemma step_heap_cases self (batch : gmap string nat) (h : gmap nat Tensor) :
  (_step self batch h).2
  = match batch !! "target_ids" with
    | Some r =>
        match h !! r with
        | Some t =>
            <[r := masked_fill (pad_token_id (tokenizer self)) (-100) t]> h
        | None => h
        end
    | None => h
    end.
Proof.
  destruct (batch !! "target_ids") as [r|] eqn:Hkey.
  - destruct (h !! r) as [t|] eqn:Hr; [by apply step_heap|].
    unfold _step, masked_assign, getitem, deref, bind, try, ret, raise.
    rewrite Hkey. cbn. by rewrite Hr.
  - by rewrite step_without_target_ids.
Qed.

(** Running the step again on the same batch, as a validation step after a
    training step would, changes no tensor any further. *)
Theorem step_twice_same_heap self (batch : gmap string nat)
    (h : gmap nat Tensor) :
  (_step self batch (_step self batch h).2).2 = (_step self batch h).2.
Proof.
  rewrite !step_heap_cases.
  destruct (batch !! "target_ids") as [r|]; [|done].
  destruct (h !! r) as [t|] eqn:Hr; [|by rewrite Hr].
  rewrite lookup_insert_eq, insert_insert_eq. by rewrite masked_fill_twice.
Qed.

(** After the step no label equals the pad token id, unless that id is -100
    itself. *)
Theorem step_leaves_no_pad self (batch : gmap string nat)
    (h : gmap nat Tensor) r t t' i j x :
  batch !! "target_ids" = Some r →
  h !! r = Some t →
  pad_token_id (tokenizer self) ≠ -100 →
  (_step self batch h).2 !! r = Some t' →
  entry t' i j = Some x →
  x ≠ pad_token_id (tokenizer self).
Proof.
  intros Hkey Hr Hpad Ht' Hx.
  rewrite (step_heap self batch h r t Hkey Hr), lookup_insert_eq in Ht'.
  injection Ht' as <-. rewrite entry_masked_fill in Hx.
  destruct (entry t i j) as [y|]; [|done]. cbn in Hx. injection Hx as <-.
  destruct (y =? pad_token_id (tokenizer self)) eqn:Hy; [lia|].
  by apply Z.eqb_neq in Hy.
Qed.

(** What the step returns.  With the four keys present, the model is called
    on the tensors as they are after the labels were rewritten, with the
    rewritten labels; the step returns the first of the model's outputs,
    raises [IndexError] when there is none, and raises when the model
    does. *)
Theorem step_returns_first_output self (batch : gmap string nat)
    (h : gmap nat Tensor) r rs rm rt t ts tm tt :
  batch !! "target_ids" = Some r →
  batch !! "source_ids" = Some rs →
  batch !! "source_mask" = Some rm →
  batch !! "target_mask" = Some rt →
  h !! r = Some t →
  let h' := <[r := masked_fill (pad_token_id (tokenizer self)) (-100) t]> h in
  h' !! rs = Some ts →
  h' !! rm = Some tm →
  h' !! rt = Some tt →
  (_step self batch h).1
  = match model_call (model self) ts tm
            (masked_fill (pad_token_id (tokenizer self)) (-100) t) tt with
    | None => Raise ForwardError
    | Some [] => Raise IndexError
    | Some (loss :: _) => Ok loss
    end.
Proof.
  intros Hkey Hs Hm Ht Hr h' Hts Htm Htt. subst h'.
  unfold _step, masked_assign, forward, getitem, deref, bind, try, modify,
    ret, raise.
  rewrite Hkey. cbn. rewrite Hr. cbn. rewrite Hs. cbn. rewrite Hm. cbn.
  rewrite Ht. cbn. rewrite Hts. cbn. rewrite Htm. cbn.
  rewrite lookup_insert_eq. cbn. rewrite Htt. cbn.
  destruct (model_call _ _ _ _ _) as [[|loss outs]|]; done.
Qed.

End StepRepeated.

Lemma step_without_target_ids_witness :
  @_step Toy.torch Toy.fine_tuner (delete "target_ids" Toy.batch) Toy.heap
  = (Raise (KeyError "target_ids"), Toy.heap).
Proof.
  apply (@step_without_target_ids Toy.torch Toy.fine_tuner
           (delete "target_ids" Toy.batch) Toy.heap).
  by vm_compute.
Defined.

Lemma step_rewrites_before_key_error_witness :
  ∃ found key later,
    @_step Toy.torch Toy.fine_tuner
      (delete "target_mask" (delete "source_mask" Toy.batch)) Toy.heap
    = (Raise (KeyError key),
       <[0%nat := masked_fill 0 (-100) [[5; 7; 0; 0]; [9; 0; 0; 0]]]> Toy.heap)
    ∧ ["source_ids"; "source_mask"; "target_mask"] = found ++ key :: later
    ∧ Forall (λ k, is_Some
                     (delete "target_mask" (delete "source_mask" Toy.batch)
                      !! k)) found
    ∧ delete "target_mask" (delete "source_mask" Toy.batch) !! key = None.
Proof.
  apply (@step_rewrites_before_key_error Toy.torch Toy.fine_tuner
           (delete "target_mask" (delete "source_mask" Toy.batch)) Toy.heap
           0%nat [[5; 7; 0; 0]; [9; 0; 0; 0]]).
  - by vm_compute.
  - by vm_compute.
  - right. left. by vm_compute.
Defined.

Lemma step_leaves_no_pad_witness :
  (-100) ≠ @pad_token_id Toy.torch (@tokenizer Toy.torch Toy.fine_tuner).
Proof.
  apply (@step_leaves_no_pad Toy.torch Toy.fine_tuner Toy.batch Toy.heap
           0%nat [[5; 7; 0; 0]; [9; 0; 0; 0]]
           [[5; 7; -100; -100]; [9; -100; -100; -100]] 0%nat 2%nat (-100)).
  - by vm_compute.
  - by vm_compute.
  - by vm_compute.
  - by vm_compute.
  - by vm_compute.
Defined.

Lemma step_returns_first_output_witness :
  (@_step Toy.torch Toy.fine_tuner Toy.batch Toy.heap).1 = Ok 0.
Proof.
  rewrite (@step_returns_first_output Toy.torch Toy.fine_tuner Toy.batch
             Toy.heap 0%nat 1%nat 2%nat 3%nat
             [[5; 7; 0; 0]; [9; 0; 0; 0]]
             [[3; 4; 0; 0]; [6; 0; 0; 0]]
             [[1; 1; 0; 0]; [1; 0; 0; 0]]
             [[1; 1; 0; 0]; [1; 0; 0; 0]]); by vm_compute.
Defined.

(** ** The driver: empty input, failures before the loop, batches *)

Section DriverEdges.
Context `{Checkpoints}.

(** An input file with no example: the run ends normally without calling the
    generation service, and the file system is as it was, so a results file
    that did not exist is not created. *)
Theorem empty_input_writes_nothing args w tok dl ft w1 :
  startup args w = (Ok (tok, dl, ft), w1) →
  dataset dl = [] →
  main args w
  = (Ok tt,
     {| fs := fs w;
        trace := trace w ++ [EvLoadInput (file_path args);
                             EvLoadCheckpoint (ckpt args); EvDone] |}).
Proof.
  intros Hs Hempty. rewrite (main_started _ _ _ _ _ _ Hs). cbn zeta.
  destruct (startup_ok _ _ _ _ _ _ Hs) as (_ & _ & _ & _ & _ & ->).
  unfold item_batches. rewrite Hempty. cbn. by rewrite <- app_assoc.
Qed.

(** When the tokenizer cannot be loaded the run raises at once: no stage is
    entered and the world is untouched. *)
Theorem tokenizer_failure_is_immediate args w :
  tokenizer_from_pretrained (model_name_or_path args) = None →
  main args w = (Raise TokenizerError, w).
Proof.
  intros Htok. apply main_startup_raise.
  unfold startup, bind, try, raise. by rewrite Htok.
Qed.

(** Whatever raises before the loop (the tokenizer, the dataset, the
    checkpoint or one of its two entries, the model, its weights, the
    device), the run ends with that exception, no file is changed and only
    loading stages were entered. *)
Theorem failure_before_loop_writes_nothing args w e w1 :
  startup args w = (Raise e, w1) →
  main args w = (Raise e, w1)
  ∧ fs w1 = fs w
  ∧ ∃ new, trace w1 = trace w ++ new ∧ Forall loading new.
Proof.
  intros Hs. split; [by apply main_startup_raise|].
  destruct (startup_raise _ _ _ _ Hs) as (Hfs & new & Htr & [rest Hrest]).
  split; [done|]. exists new. split; [done|].
  assert (Forall loading (new ++ rest)) as Hall.
  { rewrite <- Hrest. constructor; [by left|].
    constructor; [by right|]. constructor. }
  by apply Forall_app in Hall as [? _].
Qed.

End DriverEdges.

(** ** Which examples are in which batch *)

Lemma batch_sampler_lookup {A} (bs : nat) (batch l : list A) k b :
  (length batch < bs)%nat →
  batch_sampler bs batch l !! k = Some b →
  b = take bs (drop (k * bs) (batch ++ l)).
Proof.
  revert batch k. induction l as [|idx l IH]; intros batch k Hlt Hk.
  - cbn in Hk. destruct batch as [|x batch]; [done|].
    destruct k as [|k]; [|done]. injection Hk as <-.
    rewrite app_nil_r, Nat.mul_0_l, drop_0. symmetry. apply take_ge. lia.
  - cbn [batch_sampler] in Hk.
    replace (batch ++ idx :: l) with ((batch ++ [idx]) ++ l)
      by (by rewrite <- app_assoc).
    destruct (length (batch ++ [idx]) =? bs)%nat eqn:Hbs.
    + apply Nat.eqb_eq in Hbs. destruct k as [|k].
      * injection Hk as <-. rewrite Nat.mul_0_l, drop_0.
        symmetry. by apply take_app_length'.
      * cbn [lookup list_lookup] in Hk.
        apply (IH [] k) in Hk;
          [|cbn; rewrite length_app in Hbs; cbn in Hbs; lia].
        cbn [app] in Hk. rewrite Hk.
        f_equal. replace (S k * bs)%nat with (length (batch ++ [idx]) + k * bs)%nat
          by lia.
        by rewrite drop_app_add.
    + apply Nat.eqb_neq in Hbs. apply IH; [|done].
      rewrite length_app in *. cbn in *. lia.
Qed.

Lemma batch_sampler_length {A} (bs : nat) (batch l : list A) :
  (length batch < bs)%nat →
  length (batch_sampler bs batch l)
  = ((length batch + length l + bs - 1) / bs)%nat.
Proof.
  revert batch. induction l as [|idx l IH]; intros batch Hlt.
  - cbn [length]. destruct batch as [|x batch]; cbn [batch_sampler length].
    + symmetry. apply Nat.div_small. lia.
    + apply (Nat.div_unique _ _ _ (length batch)); cbn in *; lia.
  - cbn [batch_sampler].
    destruct (length (batch ++ [idx]) =? bs)%nat eqn:Hbs.
    + apply Nat.eqb_eq in Hbs. rewrite length_app in Hbs. cbn in Hbs.
      cbn [length]. rewrite IH by (cbn; lia). cbn [length].
      replace (length batch + S (length l) + bs - 1)%nat
        with (1 * bs + (0 + length l + bs - 1))%nat by lia.
      rewrite Nat.div_add_l by lia. lia.
    + apply Nat.eqb_neq in Hbs. rewrite length_app in Hbs. cbn in Hbs.
      rewrite IH by (rewrite length_app; cbn; lia).
      rewrite length_app. cbn [length]. f_equal. lia.
Qed.

Section Batches.
Context `{Checkpoints}.

(** The batch of index [k] holds the examples of index [32 k] to
    [32 k + 31] of the input file, or those that are left of them. *)
Theorem batch_k_is_kth_slice args w tok dl ft w1 k items :
  startup args w = (Ok (tok, dl, ft), w1) →
  item_batches dl !! k = Some items →
  items = take 32 (drop (k * 32) (dataset dl)).
Proof.
  intros Hs Hk. destruct (startup_ok _ _ _ _ _ _ Hs) as (_ & _ & Hbs & _).
  unfold item_batches in Hk. rewrite Hbs in Hk.
  apply (batch_sampler_lookup 32 [] (dataset dl)) in Hk; [done|cbn; lia].
Qed.

(** A run over [N] examples goes through [N / 32] batches, rounded up. *)
Theorem number_of_batches args w tok dl ft w1 :
  startup args w = (Ok (tok, dl, ft), w1) →
  length (item_batches dl) = ((length (dataset dl) + 31) / 32)%nat.
Proof.
  intros Hs. destruct (startup_ok _ _ _ _ _ _ Hs) as (_ & _ & Hbs & _).
  unfold item_batches. rewrite Hbs.
  rewrite (batch_sampler_length 32 [] (dataset dl)) by (cbn; lia).
  cbn [length]. f_equal. lia.
Qed.

End Batches.

(** ** A second small instance: as many sentences as the path has letters *)

Module Toy2.

Definition torch : Torch := {|
  T5Tokenizer := string;
  T5ForConditionalGeneration := nat;
  StateDict := nat;
  Loss := Z;
  tokenizer_from_pretrained name :=
    if decide (name = "t5-base") then Some name else None;
  pad_token_id _ := 0;
  decode _ ids _ := Toy.decode_bytes ids;
  model_from_pretrained name :=
    if decide (name = "t5-base") then Some 0%nat else None;
  model_call _ _ _ _ _ := Some [0];
  generate _ ids _ max_length := Toy.copy_model ids max_length;
  load_state_dict _ sd := Some sd;
  to_device m dev := if decide (dev = "0") then Some m else None;
  eval_mode m := m;
  MyDataset _ path _ _ _ := Some (Toy.sentences (String.length path))
|}.

Definition checkpoints : @Checkpoints torch := {|
  torch_load path :=
    if decide (path = "model.ckpt")
    then Some (<["hyper_parameters" :=
                   @CkptHParams torch
                     {| hp_model_name_or_path := "t5-base";
                        hp_train_batch_size := 16;
                        hp_eval_batch_size := 16 |}]>
               (<["state_dict" := @CkptStateDict torch 7%nat]> ∅))
    else None
|}.

(** A world with no file at all. *)
Definition world : World := {| fs := ∅; trace := [] |}.

(** Arguments naming a pretrained model that does not exist. *)
Definition args_unknown_model : Args := {|
  task := "uabsa";
  file_path := "five.txt";
  model_name_or_path := "t5-huge";
  paradigm := "annotation";
  do_train := false;
  do_eval := false;
  do_direct_eval := false;
  max_seq_length := 128;
  n_gpu := "0";
  train_batch_size := 16;
  eval_batch_size := 16;
  gradient_accumulation_steps := 1;
  learning_rate := (3 # 10000)%Q;
  num_train_epochs := 20;
  seed := 42;
  weight_decay := 0%Q;
  adam_epsilon := (1 # 100000000)%Q;
  warmup_steps := 0%Q;
  ckpt := "model.ckpt"
|}.

End Toy2.

Lemma empty_input_writes_nothing_witness :
  @main Toy2.torch Toy2.checkpoints (Toy.args "") Toy2.world
  = (Ok tt,
     {| fs := ∅;
        trace := [EvLoadInput ""; EvLoadCheckpoint "model.ckpt"; EvDone] |}).
Proof.
  eapply (@empty_input_writes_nothing Toy2.torch Toy2.checkpoints
            (Toy.args "") Toy2.world).
  - lazy. reflexivity.
  - reflexivity.
Defined.

Lemma tokenizer_failure_is_immediate_witness :
  Toy.run Toy2.args_unknown_model = (Raise TokenizerError, Toy.world).
Proof.
  apply (@tokenizer_failure_is_immediate Toy.torch Toy.checkpoints).
  by vm_compute.
Defined.

Lemma failure_before_loop_writes_nothing_witness :
  Toy.run (init_args "uabsa" "five.txt" "annotation" "no_weights.ckpt")
  = (Raise (KeyError "state_dict"),
     {| fs := fs Toy.world;
        trace := [EvLoadInput "five.txt";
                  EvLoadCheckpoint "no_weights.ckpt"] |})
  ∧ fs Toy.world = fs Toy.world
  ∧ ∃ new, [EvLoadInput "five.txt"; EvLoadCheckpoint "no_weights.ckpt"]
           = trace Toy.world ++ new
           ∧ Forall loading new.
Proof.
  apply (@failure_before_loop_writes_nothing Toy.torch Toy.checkpoints
           (init_args "uabsa" "five.txt" "annotation" "no_weights.ckpt")
           Toy.world (KeyError "state_dict")
           {| fs := fs Toy.world;
              trace := [EvLoadInput "five.txt";
                        EvLoadCheckpoint "no_weights.ckpt"] |}).
  by vm_compute.
Defined.

Lemma batch_k_is_kth_slice_witness :
  [Toy.item [97]] = take 32 (drop (1 * 32) (Toy.sentences 33)).
Proof.
  apply (@batch_k_is_kth_slice Toy.torch Toy.checkpoints
           (Toy.args "many.txt") Toy.world "t5-base"
           {| dataset := Toy.sentences 33; batch_size := 32;
              num_workers := 4 |}
           Toy.fine_tuner
           {| fs := fs Toy.world;
              trace := [EvLoadInput "many.txt";
                        EvLoadCheckpoint "model.ckpt"] |}
           1%nat [Toy.item [97]]).
  - by vm_compute.
  - by vm_compute.
Defined.

Lemma number_of_batches_witness :
  length (item_batches {| dataset := Toy.sentences 33; batch_size := 32;
                          num_workers := 4 |})
  = ((length (Toy.sentences 33) + 31) / 32)%nat.
Proof.
  apply (@number_of_batches Toy.torch Toy.checkpoints
           (Toy.args "many.txt") Toy.world "t5-base"
           {| dataset := Toy.sentences 33; batch_size := 32;
              num_workers := 4 |}
           Toy.fine_tuner
           {| fs := fs Toy.world;
              trace := [EvLoadInput "many.txt";
                        EvLoadCheckpoint "model.ckpt"] |}).
  by vm_compute.
Defined.
